(** * LRU-IPV replacement policy (gem5, [mem/cache/replacement_policies/lru_ipv])

    A shallow embedding of the two source variants of [LRUIPVRP] (the lenient
    one, which warns and falls back to an LRU-like mode when the cache is not
    16-way, and the strict one, which refuses to construct), together with the
    properties of insertion, promotion, invalidation and victim selection.

    Per-line state lives behind [std::shared_ptr]s; it is modelled as a heap
    of [IPVReplData] cells, and every member function is a computation over
    that heap which may finish, abort on a failed [assert], or run into
    undefined behaviour (a pointer that owns no cell, an array read out of
    bounds). *)

From Stdlib Require Import ZArith Lia.
From stdpp Require Import base option list gmap.

Local Open Scope Z_scope.

(** ** Machine integers *)

(** [static_cast<uint8_t>(x)]: the low eight bits. *)
Definition to_uint8 (x : Z) : Z := x mod 2 ^ 8.

(** Arithmetic on [unsigned] (32 bits) wraps around. *)
Definition to_unsigned (x : Z) : Z := x mod 2 ^ 32.

Definition is_uint8 (x : Z) : Prop := 0 <= x < 2 ^ 8.
Definition is_unsigned (x : Z) : Prop := 0 <= x < 2 ^ 32.

(** ** Data model *)

(** [struct IPVReplData]: a single byte [depth], 0 on allocation. *)
Record IPVReplData := { depth : Z }.

Definition loc := positive.

(** The cells owned by the [shared_ptr<ReplacementData>]s in circulation. *)
Abbreviation heap := (gmap loc IPVReplData).

(** Modelled from the spec: gem5's [ReplaceableEntry] is declared outside
    these sources; a candidate is a pair of an identifying handle and the
    pointer to its per-line state. The policy never writes to an entry, so a
    [ReplaceableEntry*] is represented by the entry it points to. *)
Record ReplaceableEntry := { handle : nat; replacementData : loc }.

(** ** Computations over the heap *)

Inductive outcome (A : Type) : Type :=
| Done (a : A) (h : heap)
| AssertionFailed
| Undefined.
Arguments Done {A} a h.
Arguments AssertionFailed {A}.
Arguments Undefined {A}.

Definition M (A : Type) : Type := heap -> outcome A.

#[global] Instance M_ret : MRet M := fun A a h => Done a h.

#[global] Instance M_bind : MBind M := fun A B f m h =>
  match m h with
  | Done a h' => f a h'
  | AssertionFailed => AssertionFailed
  | Undefined => Undefined
  end.

(** [p->depth] read through a pointer. *)
Definition load (p : loc) : M IPVReplData := fun h =>
  match h !! p with
  | Some d => Done d h
  | None => Undefined
  end.

(** [p->depth = v]. *)
Definition store_depth (p : loc) (v : Z) : M unit := fun h =>
  match h !! p with
  | Some _ => Done tt (<[p := {| depth := v |}]> h)
  | None => Undefined
  end.

(** [assert(b)]. *)
Definition assert (b : bool) : M unit := fun h =>
  if b then Done tt h else AssertionFailed.

(** [a[i]] on an array or vector: reading past the end is undefined. *)
Definition index {A : Type} (a : list A) (i : Z) : M A := fun h =>
  if i <? 0 then Undefined
  else match a !! Z.to_nat i with
       | Some x => Done x h
       | None => Undefined
       end.

(** [v.empty()] on a vector. *)
Definition vector_empty {A : Type} (v : list A) : bool :=
  match v with
  | [] => true
  | _ :: _ => false
  end.

(** [std::make_shared<IPVReplData>()]: a cell that no pointer owned before,
    holding the members' default values. *)
Definition make_shared (d : IPVReplData) : M loc := fun h =>
  let p := fresh (dom h) in
  Done p (<[p := d]> h).

(** Diagnostics of the constructors ([warn] and [fatal_if] of base/logging):
    the associativity received and the one the table is built for. *)
Inductive diagnostic : Type :=
| Warning (ways k : Z)
| Fatal (k ways : Z).

Inductive construction (A : Type) : Type :=
| Constructed (p : A) (log : list diagnostic)
| Rejected (d : diagnostic).
Arguments Constructed {A} p log.
Arguments Rejected {A} d.

(** ** The lenient variant (lru_ipv.cc, first unit, with its header) *)

Module Lenient.

(** [static constexpr unsigned IPV_K = 16]. *)
Definition IPV_K : Z := 16.

(** [IPV[IPV_K + 1]], lru_ipv.cc lines 9-12: promotion targets for positions
    0..15, then insertion at index 16. *)
Definition IPV : list Z :=
  [0; 0; 1; 0; 3; 0; 1; 2; 1; 0; 5; 1; 0; 0; 1; 11; 13].

(** The instance: the associativity handed over by the cache, and whether the
    table applies. *)
Record LRUIPVRP := { ways : Z; useIpv : bool }.

(** The constructor, lines 14-28: it always succeeds, and warns when the
    cache is not 16-way. *)
Definition construct (numWays : Z) : construction LRUIPVRP :=
  let ways := numWays in
  let useIpv := ways =? IPV_K in
  Constructed {| ways := ways; useIpv := useIpv |}
              (if negb useIpv then [Warning ways IPV_K] else []).

(** [reset], lines 30-47. *)
Definition reset (this : LRUIPVRP) (rd : loc) : M unit :=
  if useIpv this then
    v ← index IPV IPV_K;
    store_depth rd (to_uint8 v)
  else
    store_depth rd (to_uint8 (to_unsigned (ways this - 1))).

(** [touch], lines 49-68. *)
Definition touch (this : LRUIPVRP) (rd : loc) : M unit :=
  if useIpv this then
    d ← load rd;
    let cur := depth d in
    let cur := if cur >=? IPV_K then IPV_K - 1 else cur in
    v ← index IPV cur;
    store_depth rd (to_uint8 v)
  else
    store_depth rd 0.

(** [invalidate], lines 70-79: the pointer is not even named. *)
Definition invalidate (this : LRUIPVRP) (rd : loc) : M unit := mret tt.

(** The range-for loop of [getVictim], lines 96-102, from the candidates
    still to visit, with the locals [victim] and [worst]. *)
Fixpoint getVictim_loop (es : list ReplaceableEntry)
         (victim : ReplaceableEntry) (worst : Z) : M ReplaceableEntry :=
  match es with
  | [] => mret victim
  | e :: es' =>
      d ← load (replacementData e);
      if depth d >? worst
      then getVictim_loop es' e (depth d)
      else getVictim_loop es' victim worst
  end.

(** [getVictim], lines 81-104: the loop starts over from the first candidate. *)
Definition getVictim (this : LRUIPVRP) (candidates : list ReplaceableEntry)
  : M ReplaceableEntry :=
  assert (negb (vector_empty candidates));;
  victim ← index candidates 0;
  d ← load (replacementData victim);
  getVictim_loop candidates victim (depth d).

(** [instantiateEntry], in the header: the member [depth] defaults to 0. *)
Definition instantiateEntry (this : LRUIPVRP) : M loc :=
  make_shared {| depth := 0 |}.

End Lenient.

(** ** The strict variant (lru_ipv.cc, second unit, with its header) *)

Module Strict.

Definition IPV_K : Z := 16.

(** The table is initialised in this variant's header. *)
Definition IPV : list Z :=
  [0; 0; 1; 0; 3; 0; 1; 2; 1; 0; 5; 1; 0; 0; 1; 11; 13].

Record LRUIPVRP := { ways : Z }.

(** The constructor, lines 115-127: [fatal_if] the cache is not 16-way. *)
Definition construct (numWays : Z) : construction LRUIPVRP :=
  let ways := numWays in
  if negb (ways =? IPV_K)
  then Rejected (Fatal IPV_K ways)
  else Constructed {| ways := ways |} [].

(** [reset], lines 129-140. *)
Definition reset (this : LRUIPVRP) (rd : loc) : M unit :=
  v ← index IPV IPV_K;
  store_depth rd (to_uint8 v).

(** [touch], lines 142-155. *)
Definition touch (this : LRUIPVRP) (rd : loc) : M unit :=
  d ← load rd;
  let cur := depth d in
  let cur := if cur >=? IPV_K then IPV_K - 1 else cur in
  v ← index IPV cur;
  store_depth rd (to_uint8 v).

(** [invalidate], lines 157-167. *)
Definition invalidate (this : LRUIPVRP) (rd : loc) : M unit := mret tt.

(** [getVictim], lines 169-192, and its loop. *)
Fixpoint getVictim_loop (es : list ReplaceableEntry)
         (victim : ReplaceableEntry) (worst : Z) : M ReplaceableEntry :=
  match es with
  | [] => mret victim
  | e :: es' =>
      d ← load (replacementData e);
      if depth d >? worst
      then getVictim_loop es' e (depth d)
      else getVictim_loop es' victim worst
  end.

Definition getVictim (this : LRUIPVRP) (candidates : list ReplaceableEntry)
  : M ReplaceableEntry :=
  assert (negb (vector_empty candidates));;
  victim ← index candidates 0;
  d ← load (replacementData victim);
  getVictim_loop candidates victim (depth d).

(** [instantiateEntry], in the header. *)
Definition instantiateEntry (this : LRUIPVRP) : M loc :=
  make_shared {| depth := 0 |}.

End Strict.

(** ** Reading the heap *)

(** The depth a candidate carries in heap [h], when its pointer owns a cell. *)
Definition depth_of (h : heap) (e : ReplaceableEntry) : option Z :=
  depth <$> h !! replacementData e.

(** Every candidate's [replacementData] owns a cell of [h]. *)
Definition allocated (h : heap) (es : list ReplaceableEntry) : Prop :=
  Forall (fun e => is_Some (h !! replacementData e)) es.

(** The depth stored behind pointer [rd]. *)
Definition depth_at (h : heap) (rd : loc) : option Z := depth <$> h !! rd.

(** In heap [h], [v], of depth [dv], stands at index [i] of [es]; no entry of
    [es] is deeper, and every entry before index [i] is strictly shallower. *)
Definition first_max (h : heap) (es : list ReplaceableEntry)
           (i : nat) (v : ReplaceableEntry) (dv : Z) : Prop :=
  es !! i = Some v /\ depth_of h v = Some dv /\
  (forall j e de, es !! j = Some e -> depth_of h e = Some de -> de <= dv) /\
  (forall j e de, (j < i)%nat -> es !! j = Some e ->
                  depth_of h e = Some de -> de < dv).

(** ** The depth table, in the spec's words *)

(** The table in the spec's vocabulary: the promotion targets are entries
    0..k-1 of [IPV], the insertion depth is entry k. *)
Definition promote : list Z := take (Z.to_nat Lenient.IPV_K) Lenient.IPV.
Definition insertDepth : option Z := Lenient.IPV !! Z.to_nat Lenient.IPV_K.

(** The position looked up on a hit: the depth itself, or k-1 when the depth
    is out of range. *)
Definition clamped (i : Z) : Z :=
  if i <? Lenient.IPV_K then i else Lenient.IPV_K - 1.

(** ** Sample lines and instances *)

(** A heap of one line, of depth [v], behind pointer 1. *)
Definition line (v : Z) : heap := {[ 1%positive := {| depth := v |} ]}.

(** A heap of four lines, with depths 3, 7, 7 and 2. *)
Definition heap_3772 : heap :=
  <[1%positive := {| depth := 3 |}]>
  (<[2%positive := {| depth := 7 |}]>
  (<[3%positive := {| depth := 7 |}]>
  (<[4%positive := {| depth := 2 |}]> ∅))).

Definition entry (n : nat) (p : loc) : ReplaceableEntry :=
  {| handle := n; replacementData := p |}.

Definition candidates_3772 : list ReplaceableEntry :=
  [entry 0 1%positive; entry 1 2%positive; entry 2 3%positive; entry 3 4%positive].

Definition exact : Lenient.LRUIPVRP :=
  {| Lenient.ways := 16; Lenient.useIpv := true |}.

Definition degraded (ways : Z) : Lenient.LRUIPVRP :=
  {| Lenient.ways := ways; Lenient.useIpv := false |}.

(** ** Calls of a cache on its policy *)

(** One call of a member function of the lenient variant that runs to its
    end, from the heap before to the heap after. *)
Inductive step (this : Lenient.LRUIPVRP) : heap -> heap -> Prop :=
| step_instantiateEntry h p h' :
    Lenient.instantiateEntry this h = Done p h' -> step this h h'
| step_reset h rd h' :
    Lenient.reset this rd h = Done tt h' -> step this h h'
| step_touch h rd h' :
    Lenient.touch this rd h = Done tt h' -> step this h h'
| step_invalidate h rd h' :
    Lenient.invalidate this rd h = Done tt h' -> step this h h'
| step_getVictim h candidates v h' :
    Lenient.getVictim this candidates h = Done v h' -> step this h h'.

(** The heaps a cache can bring about: it starts with no line and only ever
    goes through the policy. *)
Definition reachable (this : Lenient.LRUIPVRP) (h : heap) : Prop :=
  rtc (step this) ∅ h.

(** Every depth of the heap satisfies [P]. *)
Definition depths (P : Z -> Prop) (h : heap) : Prop :=
  forall p d, h !! p = Some d -> P (depth d).

#[global] Instance ReplaceableEntry_eq_dec : EqDecision ReplaceableEntry.
Proof. solve_decision. Defined.

(** ** Running computations *)

Lemma bind_Done {A B : Type} (m : M A) (f : A -> M B) (h h' : heap) (a : A) :
  m h = Done a h' -> (m ≫= f) h = f a h'.
Proof. intros E. unfold mbind, M_bind. now rewrite E. Qed.

Lemma load_Done (h : heap) (p : loc) (d : IPVReplData) :
  h !! p = Some d -> load p h = Done d h.
Proof. intros E. unfold load. now rewrite E. Qed.

Lemma store_depth_Done (h : heap) (p : loc) (d : IPVReplData) (v : Z) :
  h !! p = Some d -> store_depth p v h = Done tt (<[p := {| depth := v |}]> h).
Proof. intros E. unfold store_depth. now rewrite E. Qed.

Lemma depth_at_store (h : heap) (p : loc) (v : Z) :
  depth_at (<[p := {| depth := v |}]> h) p = Some v.
Proof. unfold depth_at. now rewrite lookup_insert_eq. Qed.

Lemma allocated_depth_of (h : heap) (e : ReplaceableEntry) :
  is_Some (h !! replacementData e) ->
  exists d, h !! replacementData e = Some d /\ depth_of h e = Some (depth d).
Proof. intros [d E]. exists d. unfold depth_of. now rewrite E. Qed.

(** ** Victim selection *)

Lemma getVictim_loop_cons (h : heap) (e : ReplaceableEntry) (es : list ReplaceableEntry)
      (victim : ReplaceableEntry) (worst : Z) (d : IPVReplData) :
  h !! replacementData e = Some d ->
  Lenient.getVictim_loop (e :: es) victim worst h
  = if depth d >? worst
    then Lenient.getVictim_loop es e (depth d) h
    else Lenient.getVictim_loop es victim worst h.
Proof.
  intros E. cbn [Lenient.getVictim_loop].
  rewrite (bind_Done _ _ _ _ _ (load_Done _ _ _ E)).
  now destruct (depth d >? worst).
Qed.

Lemma getVictim_cons (this : Lenient.LRUIPVRP) (h : heap) (e : ReplaceableEntry)
      (es : list ReplaceableEntry) (d : IPVReplData) :
  h !! replacementData e = Some d ->
  Lenient.getVictim this (e :: es) h
  = Lenient.getVictim_loop (e :: es) e (depth d) h.
Proof.
  intros E. unfold Lenient.getVictim.
  change ((assert (negb (vector_empty (e :: es))) ≫= _) h) with
    ((load (replacementData e) ≫=
        fun d => Lenient.getVictim_loop (e :: es) e (depth d)) h).
  now rewrite (bind_Done _ _ _ _ _ (load_Done _ _ _ E)).
Qed.

(** The entry looked up at the head of the candidates is the head, and its
    depth is the one just loaded. *)
Ltac at_head Hlk Ede Hde :=
  injection Hlk as <-; rewrite Ede in Hde; injection Hde as <-.

Section Scan.

Variable h : heap.

(** The loop keeps the best so far unless a strictly deeper entry shows up,
    and then it ends on the first of the deepest. *)
Lemma getVictim_loop_scan (es : list ReplaceableEntry) :
  allocated h es ->
  forall victim worst,
  exists v dv,
    Lenient.getVictim_loop es victim worst h = Done v h /\
    (forall j e de, es !! j = Some e -> depth_of h e = Some de -> de <= dv) /\
    ((v = victim /\ dv = worst) \/
     (worst < dv /\ exists i, es !! i = Some v /\ depth_of h v = Some dv /\
        forall j e de, (j < i)%nat -> es !! j = Some e ->
                       depth_of h e = Some de -> de < dv)).
Proof.
  induction 1 as [|e es He Hes IH]; intros victim worst.
  - exists victim, worst. split; [reflexivity|].
    split; [intros j e de Hj; discriminate Hj | left; auto].
  - destruct (allocated_depth_of _ _ He) as (d & Ed & Ede).
    rewrite (getVictim_loop_cons _ _ _ _ _ _ Ed).
    destruct (Z.gtb_spec (depth d) worst) as [Hgt|Hle].
    + destruct (IH e (depth d)) as (v & dv & Hrun & Hmax & Hwho).
      exists v, dv. split; [exact Hrun|].
      assert (Hd : depth d <= dv)
        by (destruct Hwho as [[_ ->]|[Hlt _]]; lia).
      split.
      * intros [|j] e' de Hj Hde; cbn in Hj.
        -- at_head Hj Ede Hde. exact Hd.
        -- eapply Hmax; eassumption.
      * right. split; [lia|].
        destruct Hwho as [[-> ->]|(Hlt & i & Hi & Hv & Hbefore)].
        -- exists 0%nat. split; [reflexivity|]. split; [exact Ede|].
           intros j e' de Hj. lia.
        -- exists (S i). split; [exact Hi|]. split; [exact Hv|].
           intros [|j] e' de Hj Hlk Hde; cbn in Hlk.
           ++ at_head Hlk Ede Hde. exact Hlt.
           ++ eapply (Hbefore j); [lia|eassumption..].
    + destruct (IH victim worst) as (v & dv & Hrun & Hmax & Hwho).
      exists v, dv. split; [exact Hrun|].
      assert (Hd : worst <= dv)
        by (destruct Hwho as [[_ ->]|[Hlt _]]; lia).
      split.
      * intros [|j] e' de Hj Hde; cbn in Hj.
        -- at_head Hj Ede Hde. lia.
        -- eapply Hmax; eassumption.
      * destruct Hwho as [Hsame|(Hlt & i & Hi & Hv & Hbefore)]; [left; exact Hsame|].
        right. split; [exact Hlt|].
        exists (S i). split; [exact Hi|]. split; [exact Hv|].
        intros [|j] e' de Hj Hlk Hde; cbn in Hlk.
        -- at_head Hlk Ede Hde. lia.
        -- eapply (Hbefore j); [lia|eassumption..].
Qed.

Lemma getVictim_scan (this : Lenient.LRUIPVRP) (candidates : list ReplaceableEntry) :
  candidates <> [] -> allocated h candidates ->
  exists i v dv,
    Lenient.getVictim this candidates h = Done v h /\
    first_max h candidates i v dv.
Proof.
  intros Hne Hall.
  destruct candidates as [|e0 es]; [congruence|].
  pose proof (Forall_inv Hall) as He0.
  destruct (allocated_depth_of _ _ He0) as (d0 & Ed0 & Ede0).
  destruct (getVictim_loop_scan (e0 :: es) Hall e0 (depth d0))
    as (v & dv & Hrun & Hmax & Hwho).
  rewrite (getVictim_cons this _ _ _ _ Ed0).
  destruct Hwho as [[-> ->]|(Hlt & i & Hi & Hv & Hbefore)].
  - exists 0%nat, e0, (depth d0). split; [exact Hrun|].
    repeat split; auto. intros j e de Hj. lia.
  - exists i, v, dv. split; [exact Hrun|]. repeat split; auto.
Qed.

End Scan.

(** C1. On a non-empty sequence of candidates whose per-line states exist,
    [getVictim] returns, leaving the heap as it was, the earliest candidate of
    greatest depth: no candidate is deeper than the one returned, and every
    candidate before it is strictly shallower. On depths 3, 7, 7, 2 this is
    the candidate at index 1. *)
Theorem getVictim_first_max :
  (forall (this : Lenient.LRUIPVRP) (h : heap) (candidates : list ReplaceableEntry),
      candidates <> [] -> allocated h candidates ->
      exists i v dv,
        Lenient.getVictim this candidates h = Done v h /\
        candidates !! i = Some v /\ depth_of h v = Some dv /\
        (forall j e de, candidates !! j = Some e ->
                        depth_of h e = Some de -> de <= dv) /\
        (forall j e de, (j < i)%nat -> candidates !! j = Some e ->
                        depth_of h e = Some de -> de < dv))
  /\ (forall this : Lenient.LRUIPVRP,
        depth_of heap_3772 <$> candidates_3772 = [Some 3; Some 7; Some 7; Some 2] /\
        candidates_3772 !! 1%nat = Some (entry 1 2%positive) /\
        Lenient.getVictim this candidates_3772 heap_3772
        = Done (entry 1 2%positive) heap_3772).
Proof.
  split.
  - intros this h candidates Hne Hall.
    destruct (getVictim_scan h this candidates Hne Hall) as (i & v & dv & Hrun & Hfm).
    exists i, v, dv. split; [exact Hrun | exact Hfm].
  - intros this. repeat split; vm_compute; reflexivity.
Qed.

(** The four sample candidates point into the sample heap. *)
Lemma allocated_3772 : allocated heap_3772 candidates_3772.
Proof. repeat constructor; eexists; vm_compute; reflexivity. Defined.

(** C1 at the sample candidates. *)
Lemma getVictim_first_max_witness :
  candidates_3772 <> [] /\ allocated heap_3772 candidates_3772 /\
  exists i v dv,
    Lenient.getVictim exact candidates_3772 heap_3772 = Done v heap_3772 /\
    candidates_3772 !! i = Some v /\ depth_of heap_3772 v = Some dv /\
    (forall j e de, candidates_3772 !! j = Some e ->
                    depth_of heap_3772 e = Some de -> de <= dv) /\
    (forall j e de, (j < i)%nat -> candidates_3772 !! j = Some e ->
                    depth_of heap_3772 e = Some de -> de < dv).
Proof.
  split; [discriminate|]. split; [exact allocated_3772|].
  apply (proj1 getVictim_first_max exact heap_3772 candidates_3772).
  - discriminate.
  - exact allocated_3772.
Defined.

(** ** Mode selection *)

Lemma construct_total (numWays : Z) :
  exists this log, Lenient.construct numWays = Constructed this log.
Proof. unfold Lenient.construct. eauto. Qed.

Lemma construct_exact (numWays : Z) (this : Lenient.LRUIPVRP) (log : list diagnostic) :
  Lenient.construct numWays = Constructed this log ->
  numWays = Lenient.IPV_K ->
  this = exact /\ log = [].
Proof.
  unfold Lenient.construct. intros E ->. injection E as <- <-. split; reflexivity.
Qed.

Lemma construct_degraded (numWays : Z) (this : Lenient.LRUIPVRP) (log : list diagnostic) :
  Lenient.construct numWays = Constructed this log ->
  numWays <> Lenient.IPV_K ->
  this = degraded numWays /\ log = [Warning numWays Lenient.IPV_K].
Proof.
  unfold Lenient.construct. intros E Hne.
  apply Z.eqb_neq in Hne. rewrite Hne in E. injection E as <- <-. split; reflexivity.
Qed.

(** ** The depth table *)

Lemma promote_in_range (i : Z) :
  0 <= i < Lenient.IPV_K ->
  exists v, promote !! Z.to_nat i = Some v /\ Lenient.IPV !! Z.to_nat i = Some v /\
            0 <= v <= Lenient.IPV_K - 1.
Proof.
  unfold Lenient.IPV_K. intros Hi.
  assert (Hn : exists n, (n < 16)%nat /\ i = Z.of_nat n)
    by (exists (Z.to_nat i); lia).
  destruct Hn as (n & Hn & ->). rewrite Nat2Z.id.
  do 16 (destruct n as [|n]; [eexists; repeat split; cbn; lia|]).
  lia.
Qed.

Lemma clamped_in_range (i : Z) : 0 <= i -> 0 <= clamped i < Lenient.IPV_K.
Proof.
  unfold clamped, Lenient.IPV_K. intros Hi.
  destruct (Z.ltb_spec i 16); lia.
Qed.

(** ** Insertion and promotion with the table *)

Lemma reset_exact_run (h : heap) (rd : loc) (d : IPVReplData) :
  h !! rd = Some d ->
  Lenient.reset exact rd h = Done tt (<[rd := {| depth := 13 |}]> h).
Proof.
  intros E. unfold Lenient.reset, exact. cbn [Lenient.useIpv].
  change (index Lenient.IPV Lenient.IPV_K ≫= _) with
    (fun h0 : heap => store_depth rd (to_uint8 13) h0).
  cbv beta. now rewrite (store_depth_Done _ _ _ _ E).
Qed.

Lemma touch_exact_run (h : heap) (rd : loc) (d : IPVReplData) :
  h !! rd = Some d -> is_uint8 (depth d) ->
  exists v, promote !! Z.to_nat (clamped (depth d)) = Some v /\
            0 <= v <= Lenient.IPV_K - 1 /\
            Lenient.touch exact rd h = Done tt (<[rd := {| depth := v |}]> h).
Proof.
  intros E [Hlo _].
  destruct (promote_in_range _ (clamped_in_range _ Hlo)) as (v & Hp & Hv & Hr).
  exists v. split; [exact Hp|]. split; [exact Hr|].
  unfold Lenient.touch, exact. cbn [Lenient.useIpv].
  rewrite (bind_Done _ _ _ _ _ (load_Done _ _ _ E)). cbv zeta.
  replace (if depth d >=? Lenient.IPV_K then Lenient.IPV_K - 1 else depth d)
    with (clamped (depth d)).
  2:{ unfold clamped. rewrite Z.geb_leb.
      destruct (Z.ltb_spec (depth d) Lenient.IPV_K), (Z.leb_spec Lenient.IPV_K (depth d));
        lia. }
  assert (Hix : index Lenient.IPV (clamped (depth d)) h = Done v h).
  { unfold index. pose proof (clamped_in_range _ Hlo) as Hc.
    destruct (Z.ltb_spec (clamped (depth d)) 0); [lia|]. now rewrite Hv. }
  rewrite (bind_Done _ _ _ _ _ Hix).
  rewrite (store_depth_Done _ _ _ _ E).
  unfold to_uint8. rewrite Z.mod_small; [reflexivity|].
  unfold Lenient.IPV_K in Hr. lia.
Qed.

(** C2. In exact mode (an instance constructed with associativity k = 16), a
    hit on a line of depth [i] stores [promote[i']], where [i'] is [i] when
    [i < k] and [k - 1] otherwise. With the shipped table a line at depth 13
    is promoted to depth 0, and a line that is inserted and then hit twice
    goes through depths 13, 0, 0. *)
Theorem touch_exact_promotes :
  (forall numWays this log (h : heap) rd d,
      Lenient.construct numWays = Constructed this log ->
      numWays = Lenient.IPV_K ->
      h !! rd = Some d -> is_uint8 (depth d) ->
      let i' := if depth d <? Lenient.IPV_K then depth d else Lenient.IPV_K - 1 in
      exists v h',
        promote !! Z.to_nat i' = Some v /\
        Lenient.touch this rd h = Done tt h' /\
        depth_at h' rd = Some v)
  /\ promote !! 13%nat = Some 0
  /\ (forall this log (h : heap) rd d,
        Lenient.construct 16 = Constructed this log ->
        h !! rd = Some d -> depth d = 13 ->
        exists h', Lenient.touch this rd h = Done tt h' /\ depth_at h' rd = Some 0)
  /\ (forall this log (h : heap) rd d,
        Lenient.construct 16 = Constructed this log ->
        h !! rd = Some d ->
        exists h1 h2 h3,
          Lenient.reset this rd h = Done tt h1 /\ depth_at h1 rd = Some 13 /\
          Lenient.touch this rd h1 = Done tt h2 /\ depth_at h2 rd = Some 0 /\
          Lenient.touch this rd h2 = Done tt h3 /\ depth_at h3 rd = Some 0).
Proof.
  assert (Hhit : forall (h : heap) rd d, h !! rd = Some d -> depth d = 13 ->
            Lenient.touch exact rd h = Done tt (<[rd := {| depth := 0 |}]> h)).
  { intros h rd [x] E Hx. cbn in Hx. subst x.
    destruct (touch_exact_run h rd _ E) as (v & Hp & _ & Hrun);
      [unfold is_uint8; cbn; lia|].
    cbn in Hp. injection Hp as <-. exact Hrun. }
  assert (Hhit0 : forall (h : heap) rd d, h !! rd = Some d -> depth d = 0 ->
            Lenient.touch exact rd h = Done tt (<[rd := {| depth := 0 |}]> h)).
  { intros h rd [x] E Hx. cbn in Hx. subst x.
    destruct (touch_exact_run h rd _ E) as (v & Hp & _ & Hrun);
      [unfold is_uint8; cbn; lia|].
    cbn in Hp. injection Hp as <-. exact Hrun. }
  split; [|split; [reflexivity|split]].
  - intros numWays this log h rd d Hc Hk E Hd i'.
    destruct (construct_exact _ _ _ Hc Hk) as [-> _].
    destruct (touch_exact_run h rd d E Hd) as (v & Hp & _ & Hrun).
    exists v, (<[rd := {| depth := v |}]> h).
    split; [exact Hp|]. split; [exact Hrun | apply depth_at_store].
  - intros this log h rd d Hc E Hd.
    destruct (construct_exact _ _ _ Hc eq_refl) as [-> _].
    eexists. split; [exact (Hhit h rd d E Hd) | apply depth_at_store].
  - intros this log h rd d Hc E.
    destruct (construct_exact _ _ _ Hc eq_refl) as [-> _].
    do 3 eexists.
    split; [exact (reset_exact_run h rd d E)|].
    split; [apply depth_at_store|].
    split; [apply (Hhit _ rd {| depth := 13 |}); [apply lookup_insert_eq | reflexivity]|].
    split; [apply depth_at_store|].
    split; [apply (Hhit0 _ rd {| depth := 0 |}); [apply lookup_insert_eq | reflexivity]|].
    apply depth_at_store.
Qed.

(** C2 at a line of depth 200, beyond the table: position 15 is looked up. *)
Lemma touch_exact_promotes_witness :
  Lenient.construct 16 = Constructed exact [] /\
  line 200 !! 1%positive = Some {| depth := 200 |} /\ is_uint8 200 /\
  exists v h',
    promote !! 15%nat = Some v /\
    Lenient.touch exact 1%positive (line 200) = Done tt h' /\
    depth_at h' 1%positive = Some v.
Proof.
  split; [reflexivity|]. split; [reflexivity|].
  split; [unfold is_uint8; lia|].
  apply (proj1 touch_exact_promotes 16 exact [] (line 200) 1%positive
               {| depth := 200 |});
    [reflexivity | reflexivity | reflexivity | unfold is_uint8; cbn; lia].
Defined.

(** C3. In exact mode, insertion stores the table's insertion value
    [insertDepth], 13 in the shipped table, whatever the depth was before; a
    second insertion overwrites the first and leaves the same heap. *)
Theorem reset_exact_inserts :
  forall numWays this log (h : heap) rd d,
    Lenient.construct numWays = Constructed this log ->
    numWays = Lenient.IPV_K ->
    h !! rd = Some d ->
    insertDepth = Some 13 /\
    exists h',
      Lenient.reset this rd h = Done tt h' /\
      depth_at h' rd = insertDepth /\
      (forall q, q <> rd -> h' !! q = h !! q) /\
      Lenient.reset this rd h' = Done tt h'.
Proof.
  intros numWays this log h rd d Hc Hk E.
  destruct (construct_exact _ _ _ Hc Hk) as [-> _].
  split; [reflexivity|].
  exists (<[rd := {| depth := 13 |}]> h).
  split; [exact (reset_exact_run h rd d E)|].
  split; [apply depth_at_store|].
  split; [intros q Hq; now apply lookup_insert_ne|].
  rewrite (reset_exact_run _ rd {| depth := 13 |}) by apply lookup_insert_eq.
  now rewrite insert_insert_eq.
Qed.

(** C3 at a line of depth 200. *)
Lemma reset_exact_inserts_witness :
  Lenient.construct 16 = Constructed exact [] /\
  line 200 !! 1%positive = Some {| depth := 200 |} /\
  insertDepth = Some 13 /\
  exists h',
    Lenient.reset exact 1%positive (line 200) = Done tt h' /\
    depth_at h' 1%positive = insertDepth /\
    (forall q, q <> 1%positive -> h' !! q = line 200 !! q) /\
    Lenient.reset exact 1%positive h' = Done tt h'.
Proof.
  split; [reflexivity|]. split; [reflexivity|].
  apply (reset_exact_inserts 16 exact [] (line 200) 1%positive {| depth := 200 |});
    reflexivity.
Defined.

(** C4. The shipped table is well formed: its sixteen promotion targets and
    its insertion value lie in [0, k-1], k = 16. Hence in exact mode, from any
    byte-sized depth (0 to 255), one insertion or one promotion leaves a depth
    in [0, k-1]. *)
Theorem table_well_formed :
  Lenient.IPV_K = 16 /\
  length Lenient.IPV = Z.to_nat (Lenient.IPV_K + 1) /\
  length promote = Z.to_nat Lenient.IPV_K /\
  Forall (fun v => 0 <= v <= Lenient.IPV_K - 1) promote /\
  (exists v, insertDepth = Some v /\ 0 <= v <= Lenient.IPV_K - 1) /\
  (forall numWays this log (h : heap) rd d,
      Lenient.construct numWays = Constructed this log ->
      numWays = Lenient.IPV_K ->
      h !! rd = Some d -> is_uint8 (depth d) ->
      (exists v h', Lenient.reset this rd h = Done tt h' /\
                    depth_at h' rd = Some v /\ 0 <= v <= Lenient.IPV_K - 1) /\
      (exists v h', Lenient.touch this rd h = Done tt h' /\
                    depth_at h' rd = Some v /\ 0 <= v <= Lenient.IPV_K - 1)).
Proof.
  split; [reflexivity|]. split; [reflexivity|]. split; [reflexivity|].
  split; [unfold promote, Lenient.IPV_K; cbn; repeat (constructor; [lia|]); constructor|].
  split; [exists 13; split; [reflexivity | unfold Lenient.IPV_K; lia]|].
  intros numWays this log h rd d Hc Hk E Hd.
  destruct (construct_exact _ _ _ Hc Hk) as [-> _].
  split.
  - exists 13, (<[rd := {| depth := 13 |}]> h).
    split; [exact (reset_exact_run h rd d E)|].
    split; [apply depth_at_store | unfold Lenient.IPV_K; lia].
  - destruct (touch_exact_run h rd d E Hd) as (v & _ & Hr & Hrun).
    exists v, (<[rd := {| depth := v |}]> h).
    split; [exact Hrun|]. split; [apply depth_at_store | exact Hr].
Qed.

(** C4 at the largest byte, 255. *)
Lemma table_well_formed_witness :
  Lenient.construct 16 = Constructed exact [] /\
  line 255 !! 1%positive = Some {| depth := 255 |} /\ is_uint8 255 /\
  (exists v h', Lenient.reset exact 1%positive (line 255) = Done tt h' /\
                depth_at h' 1%positive = Some v /\ 0 <= v <= Lenient.IPV_K - 1) /\
  (exists v h', Lenient.touch exact 1%positive (line 255) = Done tt h' /\
                depth_at h' 1%positive = Some v /\ 0 <= v <= Lenient.IPV_K - 1).
Proof.
  split; [reflexivity|]. split; [reflexivity|].
  split; [unfold is_uint8; lia|].
  apply (proj2 (proj2 (proj2 (proj2 (proj2 table_well_formed))))
           16 exact [] (line 255) 1%positive {| depth := 255 |});
    [reflexivity | reflexivity | reflexivity | unfold is_uint8; cbn; lia].
Defined.

(** ** The fallback mode *)

Lemma reset_degraded_run (ways : Z) (h : heap) (rd : loc) (d : IPVReplData) :
  h !! rd = Some d ->
  Lenient.reset (degraded ways) rd h
  = Done tt (<[rd := {| depth := to_uint8 (to_unsigned (ways - 1)) |}]> h).
Proof.
  intros E. unfold Lenient.reset, degraded. cbn [Lenient.useIpv Lenient.ways].
  exact (store_depth_Done _ _ _ _ E).
Qed.

Lemma touch_degraded_run (ways : Z) (h : heap) (rd : loc) (d : IPVReplData) :
  h !! rd = Some d ->
  Lenient.touch (degraded ways) rd h = Done tt (<[rd := {| depth := 0 |}]> h).
Proof.
  intros E. unfold Lenient.touch, degraded. cbn [Lenient.useIpv].
  exact (store_depth_Done _ _ _ _ E).
Qed.

Lemma narrowed_ways_bounds (ways : Z) :
  0 < ways -> is_unsigned ways ->
  0 <= to_uint8 (to_unsigned (ways - 1)) <= ways - 1 /\
  (ways <= 2 ^ 8 -> to_uint8 (to_unsigned (ways - 1)) = ways - 1).
Proof.
  unfold is_unsigned, to_uint8, to_unsigned. intros Hpos Hw.
  rewrite (Z.mod_small (ways - 1) (2 ^ 32)) by lia.
  split.
  - pose proof (Z.mod_pos_bound (ways - 1) (2 ^ 8) ltac:(lia)).
    pose proof (Z.mod_le (ways - 1) (2 ^ 8) ltac:(lia) ltac:(lia)). lia.
  - intros Hsmall. apply Z.mod_small. lia.
Qed.

(** C5, a defect of the code. The source's comments promise that the fallback
    [reset] sets the depth to [ways - 1] ("insert at LRU"), and the
    constructor accepts any associativity. With 257 ways the narrowing cast to
    the byte-sized field wraps: [reset] stores 0, the depth of a line just
    hit, not 256. So the code does not do, for every positive associativity
    other than 16, what the claim and its own comments say. *)
Lemma reset_degraded_not_always_ways_minus_1 :
  (0 < 257 /\ is_unsigned 257 /\ 257 <> Lenient.IPV_K /\
   Lenient.construct 257 = Constructed (degraded 257) [Warning 257 16] /\
   Lenient.reset (degraded 257) 1%positive (line 5) = Done tt (line 0) /\
   depth_at (line 0) 1%positive = Some 0 /\ 0 <> 257 - 1)
  /\ ~ (forall numWays this log (h : heap) rd d,
          0 < numWays -> is_unsigned numWays -> numWays <> Lenient.IPV_K ->
          Lenient.construct numWays = Constructed this log ->
          h !! rd = Some d ->
          exists h', Lenient.reset this rd h = Done tt h' /\
                     depth_at h' rd = Some (numWays - 1)).
Proof.
  split.
  - split; [lia|]. split; [unfold is_unsigned; lia|]. split; [discriminate|].
    split; [reflexivity|]. split; [vm_compute; reflexivity|].
    split; [reflexivity | lia].
  - intros H.
    destruct (H 257 (degraded 257) [Warning 257 16] (line 5) 1%positive {| depth := 5 |})
      as (h' & Hrun & Hd);
      [lia | unfold is_unsigned; lia | discriminate | reflexivity | reflexivity |].
    vm_compute in Hrun. injection Hrun as <-. vm_compute in Hd. discriminate Hd.
Qed.

(** Where the fallback [reset] keeps its comments' promise: for a positive
    associativity other than 16 the depth stored lies within
    [0, associativity - 1], and it is associativity - 1 itself as long as
    that fits the byte-sized field (at most 256 ways). *)
Theorem reset_degraded_inserts :
  forall numWays this log (h : heap) rd d,
    0 < numWays -> is_unsigned numWays -> numWays <> Lenient.IPV_K ->
    Lenient.construct numWays = Constructed this log ->
    h !! rd = Some d ->
    exists v h',
      Lenient.reset this rd h = Done tt h' /\
      depth_at h' rd = Some v /\
      0 <= v <= numWays - 1 /\
      (numWays <= 256 -> v = numWays - 1).
Proof.
  intros numWays this log h rd d Hpos Hw Hne Hc E.
  destruct (construct_degraded _ _ _ Hc Hne) as [-> _].
  destruct (narrowed_ways_bounds numWays Hpos Hw) as [Hr Hx].
  eexists _, _. split; [exact (reset_degraded_run numWays h rd d E)|].
  split; [apply depth_at_store|]. split; [exact Hr | exact Hx].
Qed.

(** The same at a 4-way cache. *)
Lemma reset_degraded_inserts_witness :
  0 < 4 /\ is_unsigned 4 /\ 4 <> Lenient.IPV_K /\
  Lenient.construct 4 = Constructed (degraded 4) [Warning 4 16] /\
  line 9 !! 1%positive = Some {| depth := 9 |} /\
  exists v h',
    Lenient.reset (degraded 4) 1%positive (line 9) = Done tt h' /\
    depth_at h' 1%positive = Some v /\
    0 <= v <= 4 - 1 /\
    (4 <= 256 -> v = 4 - 1).
Proof.
  split; [lia|]. split; [unfold is_unsigned; lia|]. split; [discriminate|].
  split; [reflexivity|]. split; [reflexivity|].
  apply (reset_degraded_inserts 4 (degraded 4) [Warning 4 16] (line 9) 1%positive
                                {| depth := 9 |});
    [lia | unfold is_unsigned; lia | discriminate | reflexivity | reflexivity].
Defined.

Lemma depth_of_Some (h : heap) (e : ReplaceableEntry) (v : Z) :
  depth_of h e = Some v ->
  exists d, h !! replacementData e = Some d /\ depth d = v.
Proof.
  unfold depth_of. destruct (h !! replacementData e) as [d|]; [|discriminate].
  cbn. intros [= <-]. eauto.
Qed.

Lemma getVictim_pair (this : Lenient.LRUIPVRP) (h : heap) (a b : ReplaceableEntry) :
  depth_of h a = Some 0 -> depth_of h b = Some 1 ->
  Lenient.getVictim this [a; b] h = Done b h /\
  Lenient.getVictim this [b; a] h = Done b h.
Proof.
  intros Ha Hb.
  destruct (depth_of_Some _ _ _ Ha) as (da & Ea & Hda).
  destruct (depth_of_Some _ _ _ Hb) as (db & Eb & Hdb).
  split.
  - rewrite (getVictim_cons _ _ _ _ _ Ea).
    rewrite (getVictim_loop_cons _ _ _ _ _ _ Ea), (getVictim_loop_cons _ _ _ _ _ _ Eb).
    rewrite Hda, Hdb. reflexivity.
  - rewrite (getVictim_cons _ _ _ _ _ Eb).
    rewrite (getVictim_loop_cons _ _ _ _ _ _ Eb), (getVictim_loop_cons _ _ _ _ _ _ Ea).
    rewrite Hda, Hdb. reflexivity.
Qed.

(** C6. In degraded mode a hit stores depth 0, whatever the depth was. With
    associativity 2, insertion gives depth 1, one promotion gives depth 0, and
    between a line at depth 0 and a line at depth 1 the victim is the line at
    depth 1, in either order. *)
Theorem touch_degraded_zero :
  (forall numWays this log (h : heap) rd d,
      Lenient.construct numWays = Constructed this log ->
      numWays <> Lenient.IPV_K ->
      h !! rd = Some d ->
      exists h', Lenient.touch this rd h = Done tt h' /\
                 depth_at h' rd = Some 0 /\
                 (forall q, q <> rd -> h' !! q = h !! q))
  /\ (forall this log,
        Lenient.construct 2 = Constructed this log ->
        (forall (h : heap) rd d,
            h !! rd = Some d ->
            exists h1 h2,
              Lenient.reset this rd h = Done tt h1 /\ depth_at h1 rd = Some 1 /\
              Lenient.touch this rd h1 = Done tt h2 /\ depth_at h2 rd = Some 0) /\
        (forall (h : heap) a b,
            depth_of h a = Some 0 -> depth_of h b = Some 1 ->
            Lenient.getVictim this [a; b] h = Done b h /\
            Lenient.getVictim this [b; a] h = Done b h)).
Proof.
  split.
  - intros numWays this log h rd d Hc Hne E.
    destruct (construct_degraded _ _ _ Hc Hne) as [-> _].
    eexists. split; [exact (touch_degraded_run numWays h rd d E)|].
    split; [apply depth_at_store|].
    intros q Hq. now apply lookup_insert_ne.
  - intros this log Hc.
    destruct (construct_degraded _ _ _ Hc ltac:(discriminate)) as [-> _].
    split.
    + intros h rd d E. eexists _, _.
      split; [exact (reset_degraded_run 2 h rd d E)|].
      split; [apply depth_at_store|].
      split; [apply (touch_degraded_run 2 _ rd {| depth := 1 |}), lookup_insert_eq|].
      apply depth_at_store.
    + intros h a b. apply getVictim_pair.
Qed.

(** C6 at a 2-way cache. *)
Lemma touch_degraded_zero_witness :
  Lenient.construct 2 = Constructed (degraded 2) [Warning 2 16] /\
  2 <> Lenient.IPV_K /\
  line 1 !! 1%positive = Some {| depth := 1 |} /\
  exists h', Lenient.touch (degraded 2) 1%positive (line 1) = Done tt h' /\
             depth_at h' 1%positive = Some 0 /\
             (forall q, q <> 1%positive -> h' !! q = line 1 !! q).
Proof.
  split; [reflexivity|]. split; [discriminate|]. split; [reflexivity|].
  apply (proj1 touch_degraded_zero 2 (degraded 2) [Warning 2 16] (line 1) 1%positive
               {| depth := 1 |});
    [reflexivity | discriminate | reflexivity].
Defined.

(** ** Frame and contract of victim selection *)

(** Whatever the candidates, the scan never writes: if it finishes, the heap
    is the one it started from. *)
Lemma getVictim_loop_frame (es : list ReplaceableEntry) :
  forall victim worst (h h' : heap) v,
    Lenient.getVictim_loop es victim worst h = Done v h' -> h' = h.
Proof.
  induction es as [|e es IH]; intros victim worst h h' v.
  - cbn. unfold mret, M_ret. intros [= _ <-]. reflexivity.
  - cbn [Lenient.getVictim_loop]. unfold mbind, M_bind, load.
    destruct (h !! replacementData e) as [d|]; [|discriminate].
    destruct (depth d >? worst); apply IH.
Qed.

Lemma getVictim_frame (this : Lenient.LRUIPVRP) (candidates : list ReplaceableEntry)
      (h h' : heap) (v : ReplaceableEntry) :
  Lenient.getVictim this candidates h = Done v h' -> h' = h.
Proof.
  destruct candidates as [|e es]; [discriminate|].
  unfold Lenient.getVictim.
  change ((assert (negb (vector_empty (e :: es))) ≫= _) h) with
    ((load (replacementData e) ≫=
        fun d => Lenient.getVictim_loop (e :: es) e (depth d)) h).
  unfold mbind at 1, M_bind at 1, load at 1.
  destruct (h !! replacementData e) as [d|]; [|discriminate].
  apply getVictim_loop_frame.
Qed.

(** C7. Victim selection on an empty candidate sequence aborts on its
    assertion, and the abort is not a value the caller can go on from:
    whatever follows the call aborts as well. On a non-empty sequence (of
    candidates whose per-line states exist) the assertion does not fire and
    one of the candidates is returned. *)
Theorem getVictim_requires_candidates :
  (forall (this : Lenient.LRUIPVRP) (h : heap),
      Lenient.getVictim this [] h = AssertionFailed /\
      forall (B : Type) (k : ReplaceableEntry -> M B),
        (Lenient.getVictim this [] ≫= k) h = AssertionFailed)
  /\ (forall (this : Lenient.LRUIPVRP) (h : heap) candidates,
        candidates <> [] -> allocated h candidates ->
        Lenient.getVictim this candidates h <> AssertionFailed /\
        exists v, Lenient.getVictim this candidates h = Done v h /\
                  v ∈ candidates).
Proof.
  split.
  - intros this h. split; [reflexivity|]. intros B k. reflexivity.
  - intros this h candidates Hne Hall.
    destruct (getVictim_scan h this candidates Hne Hall)
      as (i & v & dv & Hrun & Hi & _).
    split; [rewrite Hrun; discriminate|].
    exists v. split; [exact Hrun|].
    apply list_elem_of_lookup. exists i. exact Hi.
Qed.

(** C7 at the sample candidates. *)
Lemma getVictim_requires_candidates_witness :
  candidates_3772 <> [] /\ allocated heap_3772 candidates_3772 /\
  Lenient.getVictim (degraded 4) candidates_3772 heap_3772 <> AssertionFailed /\
  exists v, Lenient.getVictim (degraded 4) candidates_3772 heap_3772
            = Done v heap_3772 /\
            v ∈ candidates_3772.
Proof.
  split; [discriminate|]. split; [exact allocated_3772|].
  apply (proj2 getVictim_requires_candidates (degraded 4) heap_3772 candidates_3772);
    [discriminate | exact allocated_3772].
Defined.

(** C8. [invalidate] changes nothing: in both source variants, and in either
    mode of the lenient one, it finishes with the heap it was given, so the
    depth behind every pointer, the invalidated line's included, is what it
    was before the call. *)
Theorem invalidate_no_op :
  forall (pl : Lenient.LRUIPVRP) (ps : Strict.LRUIPVRP) (rd : loc) (h : heap),
    (exists h', Lenient.invalidate pl rd h = Done tt h' /\ h' = h /\
                forall q, depth_at h' q = depth_at h q) /\
    (exists h', Strict.invalidate ps rd h = Done tt h' /\ h' = h /\
                forall q, depth_at h' q = depth_at h q).
Proof.
  intros pl ps rd h.
  split; exists h; (split; [reflexivity|]); split; reflexivity.
Qed.

(** ** The two source variants *)

Lemma getVictim_loop_agree (es : list ReplaceableEntry) :
  forall victim worst (h : heap),
    Lenient.getVictim_loop es victim worst h
    = Strict.getVictim_loop es victim worst h.
Proof.
  induction es as [|e es IH]; intros victim worst h; [reflexivity|].
  cbn [Lenient.getVictim_loop Strict.getVictim_loop].
  unfold mbind, M_bind.
  destruct (load (replacementData e) h) as [d h'| |]; [|reflexivity..].
  destruct (depth d >? worst); apply IH.
Qed.

Lemma getVictim_agree (pl : Lenient.LRUIPVRP) (ps : Strict.LRUIPVRP)
      (candidates : list ReplaceableEntry) (h : heap) :
  Lenient.getVictim pl candidates h = Strict.getVictim ps candidates h.
Proof.
  unfold Lenient.getVictim, Strict.getVictim, mbind, M_bind.
  destruct (assert (negb (vector_empty candidates)) h) as [[] h1| |]; [|reflexivity..].
  destruct (index candidates 0 h1) as [victim h2| |]; [|reflexivity..].
  destruct (load (replacementData victim) h2) as [d h3| |]; [|reflexivity..].
  apply getVictim_loop_agree.
Qed.

(** C9. Constructed with associativity k = 16, the lenient and the strict
    variant both come into being, neither with a diagnostic, and from then on
    they cannot be told apart: on every heap, [reset], [touch], [invalidate]
    and [getVictim] of the one give the outcome (result and heap) of the
    other. *)
Theorem variants_agree_at_k :
  forall numWays,
    numWays = Lenient.IPV_K ->
    Lenient.IPV = Strict.IPV /\ Lenient.IPV_K = Strict.IPV_K /\
    (exists pl ps, Lenient.construct numWays = Constructed pl [] /\
                   Strict.construct numWays = Constructed ps []) /\
    forall pl ps logl logs,
      Lenient.construct numWays = Constructed pl logl ->
      Strict.construct numWays = Constructed ps logs ->
      logl = logs /\
      forall (h : heap) (rd : loc) (candidates : list ReplaceableEntry),
        Lenient.reset pl rd h = Strict.reset ps rd h /\
        Lenient.touch pl rd h = Strict.touch ps rd h /\
        Lenient.invalidate pl rd h = Strict.invalidate ps rd h /\
        Lenient.getVictim pl candidates h = Strict.getVictim ps candidates h.
Proof.
  intros numWays ->.
  split; [reflexivity|]. split; [reflexivity|].
  split; [eexists _, _; split; reflexivity|].
  intros pl ps logl logs [= <- <-] [= <- <-].
  split; [reflexivity|].
  intros h rd candidates.
  split; [reflexivity|]. split; [reflexivity|]. split; [reflexivity|].
  apply getVictim_agree.
Qed.

(** C9 at 16 ways, on a hit. *)
Lemma variants_agree_at_k_witness :
  16 = Lenient.IPV_K /\
  Lenient.construct 16 = Constructed exact [] /\
  Strict.construct 16 = Constructed {| Strict.ways := 16 |} [] /\
  Lenient.touch exact 2%positive heap_3772
  = Strict.touch {| Strict.ways := 16 |} 2%positive heap_3772.
Proof.
  split; [reflexivity|]. split; [reflexivity|]. split; [reflexivity|].
  destruct (variants_agree_at_k 16 eq_refl) as (_ & _ & _ & H).
  destruct (H exact {| Strict.ways := 16 |} [] [] eq_refl eq_refl) as [_ Hops].
  exact (proj1 (proj2 (Hops heap_3772 2%positive candidates_3772))).
Defined.

(** C10. Victim selection only reads. On a non-empty sequence of candidates
    (whose per-line states exist) it finishes with the heap it started from,
    so every candidate's depth is what it was before the call; and on no
    input at all does it finish with a different heap. *)
Theorem getVictim_read_only :
  forall (this : Lenient.LRUIPVRP) (h : heap) candidates,
    candidates <> [] -> allocated h candidates ->
    (exists v h', Lenient.getVictim this candidates h = Done v h' /\
                  h' = h /\
                  forall e, e ∈ candidates -> depth_of h' e = depth_of h e) /\
    (forall (cs : list ReplaceableEntry) (h0 h1 : heap) v,
        Lenient.getVictim this cs h0 = Done v h1 ->
        forall q, depth_at h1 q = depth_at h0 q).
Proof.
  intros this h candidates Hne Hall. split.
  - destruct (getVictim_scan h this candidates Hne Hall) as (i & v & dv & Hrun & _).
    exists v, h. split; [exact Hrun|]. split; [reflexivity|]. reflexivity.
  - intros cs h0 h1 v Hrun q.
    now rewrite (getVictim_frame _ _ _ _ _ Hrun).
Qed.

(** C10 at the sample candidates. *)
Lemma getVictim_read_only_witness :
  candidates_3772 <> [] /\ allocated heap_3772 candidates_3772 /\
  exists v h', Lenient.getVictim exact candidates_3772 heap_3772 = Done v h' /\
               h' = heap_3772 /\
               forall e, e ∈ candidates_3772 ->
                         depth_of h' e = depth_of heap_3772 e.
Proof.
  split; [discriminate|]. split; [exact allocated_3772|].
  apply (getVictim_read_only exact heap_3772 candidates_3772);
    [discriminate | exact allocated_3772].
Defined.

(** ** What a finished call has done *)

Lemma bind_inv {A B : Type} (m : M A) (f : A -> M B) (h h' : heap) (b : B) :
  (m ≫= f) h = Done b h' ->
  exists a h1, m h = Done a h1 /\ f a h1 = Done b h'.
Proof.
  unfold mbind, M_bind. destruct (m h) as [a h1| |]; [|discriminate..].
  intros E. exists a, h1. split; [reflexivity | exact E].
Qed.

Lemma load_inv (p : loc) (h h' : heap) (d : IPVReplData) :
  load p h = Done d h' -> h' = h /\ h !! p = Some d.
Proof.
  unfold load. destruct (h !! p) as [d0|]; [|discriminate].
  intros [= -> ->]. split; reflexivity.
Qed.

Lemma store_depth_inv (p : loc) (v : Z) (h h' : heap) :
  store_depth p v h = Done tt h' ->
  is_Some (h !! p) /\ h' = <[p := {| depth := v |}]> h.
Proof.
  unfold store_depth. destruct (h !! p) as [d0|]; [|discriminate].
  intros [= <-]. split; [eauto | reflexivity].
Qed.

Lemma index_inv {A : Type} (a : list A) (i : Z) (h h' : heap) (x : A) :
  index a i h = Done x h' ->
  h' = h /\ 0 <= i /\ a !! Z.to_nat i = Some x.
Proof.
  unfold index. destruct (Z.ltb_spec i 0); [discriminate|].
  destruct (a !! Z.to_nat i) as [y|]; [|discriminate].
  intros [= -> ->]. split; [reflexivity|]. split; [lia | reflexivity].
Qed.

(** A finished [reset] has overwritten the depth of its line, with 13 under
    the table and with the narrowed [ways - 1] otherwise. *)
Lemma reset_inv (this : Lenient.LRUIPVRP) (rd : loc) (h h' : heap) :
  Lenient.reset this rd h = Done tt h' ->
  is_Some (h !! rd) /\
  exists v, h' = <[rd := {| depth := v |}]> h /\
            v = if Lenient.useIpv this then 13
                else to_uint8 (to_unsigned (Lenient.ways this - 1)).
Proof.
  unfold Lenient.reset. destruct (Lenient.useIpv this).
  - intros E. apply bind_inv in E as (v & h1 & Hix & Hst).
    apply index_inv in Hix as (-> & _ & Hv). cbn in Hv. injection Hv as <-.
    apply store_depth_inv in Hst as [Hsome ->]. split; [exact Hsome|].
    exists 13. split; reflexivity.
  - intros E. apply store_depth_inv in E as [Hsome ->]. split; [exact Hsome|].
    eexists. split; reflexivity.
Qed.

(** A finished [touch] has overwritten the depth of its line: under the table
    with the target of the (clamped) old depth, a value of [0, 15], and with
    0 otherwise. *)
Lemma touch_inv (this : Lenient.LRUIPVRP) (rd : loc) (h h' : heap) :
  Lenient.touch this rd h = Done tt h' ->
  exists d v, h !! rd = Some d /\ h' = <[rd := {| depth := v |}]> h /\
              if Lenient.useIpv this
              then 0 <= depth d /\ promote !! Z.to_nat (clamped (depth d)) = Some v /\
                   0 <= v <= Lenient.IPV_K - 1
              else v = 0.
Proof.
  unfold Lenient.touch. destruct (Lenient.useIpv this).
  - intros E. apply bind_inv in E as (d & h1 & Hld & E).
    apply load_inv in Hld as [-> Hd]. cbv zeta in E.
    replace (if depth d >=? Lenient.IPV_K then Lenient.IPV_K - 1 else depth d)
      with (clamped (depth d)) in E.
    2:{ unfold clamped. rewrite Z.geb_leb.
        destruct (Z.ltb_spec (depth d) Lenient.IPV_K),
                 (Z.leb_spec Lenient.IPV_K (depth d)); lia. }
    apply bind_inv in E as (v & h1 & Hix & Hst).
    apply index_inv in Hix as (-> & Hpos & Hv).
    apply store_depth_inv in Hst as [_ ->].
    assert (Hlo : 0 <= depth d).
    { unfold clamped, Lenient.IPV_K in Hpos.
      destruct (Z.ltb_spec (depth d) 16); lia. }
    destruct (promote_in_range _ (clamped_in_range _ Hlo)) as (v' & Hp & Hv' & Hr).
    rewrite Hv in Hv'. injection Hv' as <-.
    exists d, v. split; [exact Hd|]. split.
    + unfold to_uint8. rewrite Z.mod_small; [reflexivity|].
      unfold Lenient.IPV_K in Hr. lia.
    + split; [exact Hlo|]. split; [exact Hp | exact Hr].
  - intros E. destruct (store_depth_inv _ _ _ _ E) as [[d Hd] ->].
    exists d, 0. split; [exact Hd|]. split; reflexivity.
Qed.

Lemma instantiateEntry_run (this : Lenient.LRUIPVRP) (h : heap) :
  Lenient.instantiateEntry this h
  = Done (fresh (dom h)) (<[fresh (dom h) := {| depth := 0 |}]> h)
  /\ h !! fresh (dom h) = None.
Proof.
  split; [reflexivity|]. apply not_elem_of_dom, is_fresh.
Qed.

(** ** Allocation of per-line state *)

(** X1. [instantiateEntry], the same in both variants, hands out a pointer
    that owned no cell before; the new cell has depth 0 and every cell that
    was there is untouched. *)
Theorem instantiateEntry_fresh :
  forall (pl : Lenient.LRUIPVRP) (ps : Strict.LRUIPVRP) (h : heap),
  exists p h',
    Lenient.instantiateEntry pl h = Done p h' /\
    Strict.instantiateEntry ps h = Done p h' /\
    h !! p = None /\
    depth_at h' p = Some 0 /\
    (forall q, q <> p -> h' !! q = h !! q) /\
    dom h' = {[p]} ∪ dom h.
Proof.
  intros pl ps h.
  destruct (instantiateEntry_run pl h) as [Hrun Hfresh].
  eexists _, _. split; [exact Hrun|]. split; [reflexivity|].
  split; [exact Hfresh|]. split; [apply depth_at_store|].
  split; [intros q Hq; now apply lookup_insert_ne | apply dom_insert_L].
Qed.

(** X3. [reset] and [touch] write the depth of the line they are handed and
    nothing else: a call that finishes leaves the set of allocated lines and
    the cell of every other line as they were, in either mode. *)
Theorem reset_touch_frame :
  forall (this : Lenient.LRUIPVRP) (rd : loc) (h h' : heap),
    Lenient.reset this rd h = Done tt h' \/ Lenient.touch this rd h = Done tt h' ->
    dom h' = dom h /\ forall q, q <> rd -> h' !! q = h !! q.
Proof.
  intros this rd h h' Hcall.
  assert (Hw : is_Some (h !! rd) /\ exists v, h' = <[rd := {| depth := v |}]> h).
  { destruct Hcall as [E|E].
    - destruct (reset_inv _ _ _ _ E) as (Hsome & v & -> & _). eauto.
    - destruct (touch_inv _ _ _ _ E) as (d & v & Hd & -> & _). eauto. }
  destruct Hw as ([d Hd] & v & ->). split.
  - apply dom_insert_lookup_L. eauto.
  - intros q Hq. now apply lookup_insert_ne.
Qed.

(** X3 on the sample heap: a hit on the line behind pointer 2, from depth 7
    to depth 2. *)
Lemma reset_touch_frame_witness :
  Lenient.touch exact 2%positive heap_3772
  = Done tt (<[2%positive := {| depth := 2 |}]> heap_3772) /\
  dom (<[2%positive := {| depth := 2 |}]> heap_3772) = dom heap_3772 /\
  forall q, q <> 2%positive ->
            <[2%positive := {| depth := 2 |}]> heap_3772 !! q = heap_3772 !! q.
Proof.
  split; [vm_compute; reflexivity|].
  apply (reset_touch_frame exact 2%positive heap_3772).
  right. vm_compute. reflexivity.
Defined.

Lemma reset_run (this : Lenient.LRUIPVRP) (h : heap) (rd : loc) (d : IPVReplData) :
  h !! rd = Some d ->
  Lenient.reset this rd h
  = Done tt (<[rd := {| depth := if Lenient.useIpv this then 13
                                 else to_uint8 (to_unsigned (Lenient.ways this - 1)) |}]> h).
Proof.
  intros E. unfold Lenient.reset. destruct (Lenient.useIpv this).
  - change (index Lenient.IPV Lenient.IPV_K ≫= _) with
      (fun h0 : heap => store_depth rd (to_uint8 13) h0).
    cbv beta. now rewrite (store_depth_Done _ _ _ _ E).
  - exact (store_depth_Done _ _ _ _ E).
Qed.

(** X2. Two lines never share their state: [instantiateEntry] called twice
    hands out two different pointers, both at depth 0, and an insertion into
    the first line leaves the second at depth 0, in either mode. *)
Theorem instantiateEntry_no_alias :
  forall (this : Lenient.LRUIPVRP) (h : heap),
  exists a b h1 h2 h3,
    Lenient.instantiateEntry this h = Done a h1 /\
    Lenient.instantiateEntry this h1 = Done b h2 /\
    a <> b /\
    depth_at h2 a = Some 0 /\ depth_at h2 b = Some 0 /\
    Lenient.reset this a h2 = Done tt h3 /\
    depth_at h3 b = Some 0.
Proof.
  intros this h.
  destruct (instantiateEntry_run this h) as [Ha _].
  set (a := fresh (dom h)) in *.
  set (h1 := <[a := {| depth := 0 |}]> h) in *.
  destruct (instantiateEntry_run this h1) as [Hb Hfresh].
  set (b := fresh (dom h1)) in *.
  set (h2 := <[b := {| depth := 0 |}]> h1) in *.
  assert (Hab : a <> b).
  { intros Heq. rewrite <- Heq in Hfresh. unfold h1 in Hfresh.
    rewrite lookup_insert_eq in Hfresh. discriminate. }
  assert (Hh2a : h2 !! a = Some {| depth := 0 |}).
  { unfold h2. rewrite lookup_insert_ne by congruence. apply lookup_insert_eq. }
  eexists a, b, h1, h2, _.
  split; [exact Ha|]. split; [exact Hb|]. split; [exact Hab|].
  split; [unfold depth_at; now rewrite Hh2a|].
  split; [apply depth_at_store|].
  split; [exact (reset_run this h2 a _ Hh2a)|].
  unfold depth_at. rewrite lookup_insert_ne by exact Hab.
  unfold h2. now rewrite lookup_insert_eq.
Qed.

(** ** The depths a cache can bring about *)

Lemma depths_store (P : Z -> Prop) (h : heap) (p : loc) (v : Z) :
  depths P h -> P v -> depths P (<[p := {| depth := v |}]> h).
Proof.
  intros Hh Hv q d. destruct (decide (p = q)) as [->|Hne].
  - rewrite lookup_insert_eq. intros [= <-]. exact Hv.
  - rewrite lookup_insert_ne by exact Hne. apply Hh.
Qed.

Lemma depths_empty (P : Z -> Prop) : depths P ∅.
Proof. intros p d E. rewrite lookup_empty in E. discriminate. Qed.

(** The depth [reset] stores: 13 under the table, the narrowed [ways - 1]
    otherwise. *)
Lemma step_two_depths (this : Lenient.LRUIPVRP) (h h' : heap) :
  let inserted := if Lenient.useIpv this then 13
                  else to_uint8 (to_unsigned (Lenient.ways this - 1)) in
  depths (fun x => x = 0 \/ x = inserted) h ->
  step this h h' ->
  depths (fun x => x = 0 \/ x = inserted) h'.
Proof.
  intros inserted Hh Hstep. destruct Hstep as [h p h' E|h rd h' E|h rd h' E|h rd h' E|h cs v h' E].
  - destruct (instantiateEntry_run this h) as [Hrun _].
    rewrite Hrun in E. injection E as _ <-.
    apply depths_store; [exact Hh | left; reflexivity].
  - destruct (reset_inv _ _ _ _ E) as (_ & v & -> & ->).
    apply depths_store; [exact Hh | right; reflexivity].
  - destruct (touch_inv _ _ _ _ E) as (d & v & Hd & -> & Hv).
    apply depths_store; [exact Hh|]. left.
    subst inserted. destruct (Lenient.useIpv this); [|exact Hv].
    destruct Hv as (_ & Hp & _).
    destruct (Hh rd d Hd) as [H0|H13]; rewrite ?H0, ?H13 in Hp;
      vm_compute in Hp; congruence.
  - injection E as <-. exact Hh.
  - rewrite (getVictim_frame _ _ _ _ _ E). exact Hh.
Qed.

Lemma reachable_two_depths (this : Lenient.LRUIPVRP) (h : heap) :
  reachable this h ->
  depths (fun x => x = 0 \/
                   x = if Lenient.useIpv this then 13
                       else to_uint8 (to_unsigned (Lenient.ways this - 1))) h.
Proof.
  unfold reachable. intros Hr.
  assert (Hgen : forall h0 h1, rtc (step this) h0 h1 ->
            depths (fun x => x = 0 \/
                     x = if Lenient.useIpv this then 13
                         else to_uint8 (to_unsigned (Lenient.ways this - 1))) h0 ->
            depths (fun x => x = 0 \/
                     x = if Lenient.useIpv this then 13
                         else to_uint8 (to_unsigned (Lenient.ways this - 1))) h1).
  { induction 1 as [|h0 h1 h2 Hstep _ IH]; [auto|].
    intros H0. apply IH. exact (step_two_depths this h0 h1 H0 Hstep). }
  exact (Hgen _ _ Hr (depths_empty _)).
Qed.

(** A cache that allocated one line and filled it. *)
Lemma reachable_filled (this : Lenient.LRUIPVRP) :
  reachable this
    {[ 1%positive := {| depth := if Lenient.useIpv this then 13
                                 else to_uint8 (to_unsigned (Lenient.ways this - 1)) |} ]}.
Proof.
  unfold reachable.
  apply (rtc_l _ _ {[ 1%positive := {| depth := 0 |} ]}).
  - apply (step_instantiateEntry this ∅ 1%positive). vm_compute. reflexivity.
  - apply rtc_once. apply (step_reset this _ 1%positive).
    rewrite (reset_run this _ 1%positive {| depth := 0 |}) by reflexivity.
    now rewrite insert_singleton_eq.
Defined.

(** X4. With the table in force (16 ways), whatever sequence of calls a cache
    makes from its start, every line is at depth 0 or 13: depths stay within
    [0, k-1], and the defensive clamp of [touch] is never taken. *)
Theorem exact_reachable_depths :
  forall numWays this log (h : heap),
    Lenient.construct numWays = Constructed this log ->
    numWays = Lenient.IPV_K ->
    reachable this h ->
    depths (fun x => x = 0 \/ x = 13) h /\
    depths (fun x => 0 <= x <= Lenient.IPV_K - 1) h /\
    depths (fun cur => (cur >=? Lenient.IPV_K) = false) h.
Proof.
  intros numWays this log h Hc Hk Hr.
  destruct (construct_exact _ _ _ Hc Hk) as [-> _].
  pose proof (reachable_two_depths exact h Hr) as H2. cbn in H2.
  split; [exact H2|].
  split; intros p d E; destruct (H2 p d E) as [->| ->];
    unfold Lenient.IPV_K; first [lia | reflexivity].
Qed.

(** X4 at a cache that allocated one line and filled it. *)
Lemma exact_reachable_depths_witness :
  Lenient.construct 16 = Constructed exact [] /\
  reachable exact {[ 1%positive := {| depth := 13 |} ]} /\
  depths (fun x => x = 0 \/ x = 13) {[ 1%positive := {| depth := 13 |} ]} /\
  depths (fun x => 0 <= x <= Lenient.IPV_K - 1) {[ 1%positive := {| depth := 13 |} ]} /\
  depths (fun cur => (cur >=? Lenient.IPV_K) = false)
         {[ 1%positive := {| depth := 13 |} ]}.
Proof.
  split; [reflexivity|]. split; [exact (reachable_filled exact)|].
  exact (exact_reachable_depths 16 exact [] _ eq_refl eq_refl (reachable_filled exact)).
Defined.

(** X5. In the fallback mode (a positive associativity other than 16),
    whatever sequence of calls a cache makes from its start, every line is at
    depth 0 or at the depth [reset] stores, and every depth lies within
    [0, associativity - 1]. *)
Theorem degraded_reachable_depths :
  forall numWays this log (h : heap),
    Lenient.construct numWays = Constructed this log ->
    numWays <> Lenient.IPV_K ->
    0 < numWays -> is_unsigned numWays ->
    reachable this h ->
    depths (fun x => x = 0 \/ x = to_uint8 (to_unsigned (numWays - 1))) h /\
    depths (fun x => 0 <= x <= numWays - 1) h.
Proof.
  intros numWays this log h Hc Hne Hpos Hw Hr.
  destruct (construct_degraded _ _ _ Hc Hne) as [-> _].
  pose proof (reachable_two_depths (degraded numWays) h Hr) as H2. cbn in H2.
  split; [exact H2|].
  destruct (narrowed_ways_bounds numWays Hpos Hw) as [Hb _].
  intros p d E. destruct (H2 p d E) as [->| ->]; lia.
Qed.

(** X5 at a 4-way cache that allocated one line and filled it. *)
Lemma degraded_reachable_depths_witness :
  Lenient.construct 4 = Constructed (degraded 4) [Warning 4 16] /\
  4 <> Lenient.IPV_K /\ 0 < 4 /\ is_unsigned 4 /\
  reachable (degraded 4) {[ 1%positive := {| depth := 3 |} ]} /\
  depths (fun x => x = 0 \/ x = to_uint8 (to_unsigned (4 - 1)))
         {[ 1%positive := {| depth := 3 |} ]} /\
  depths (fun x => 0 <= x <= 4 - 1) {[ 1%positive := {| depth := 3 |} ]}.
Proof.
  split; [reflexivity|]. split; [discriminate|]. split; [lia|].
  split; [unfold is_unsigned; lia|].
  split; [exact (reachable_filled (degraded 4))|].
  apply (degraded_reachable_depths 4 (degraded 4) [Warning 4 16]);
    [reflexivity | discriminate | lia | unfold is_unsigned; lia
    | exact (reachable_filled (degraded 4))].
Defined.

(** ** Promotion under the table *)

Lemma promote_cases (i : Z) :
  0 <= i ->
  exists n, (n < 16)%nat /\ Z.to_nat (clamped i) = n /\
            (i < Lenient.IPV_K -> i = Z.of_nat n) /\
            (Lenient.IPV_K <= i -> n = 15%nat).
Proof.
  intros Hi. unfold clamped, Lenient.IPV_K.
  destruct (Z.ltb_spec i 16).
  - exists (Z.to_nat i). repeat split; lia.
  - exists 15%nat. repeat split; lia.
Qed.

Lemma promote_decreasing (i v : Z) :
  0 <= i -> promote !! Z.to_nat (clamped i) = Some v ->
  v <= i /\ (0 < i -> v < i).
Proof.
  intros Hi Hp. destruct (promote_cases i Hi) as (n & Hn & Hc & Hlt & Hge).
  rewrite Hc in Hp. unfold Lenient.IPV_K in Hlt, Hge.
  destruct (Z.lt_ge_cases i 16) as [Hsmall|Hbig].
  - specialize (Hlt Hsmall). subst i.
    do 16 (destruct n as [|n]; [vm_compute in Hp; injection Hp as <-; lia|]).
    lia.
  - rewrite (Hge ltac:(lia)) in Hp. vm_compute in Hp. injection Hp as <-. lia.
Qed.

Lemma promote_thrice (i a b c : Z) :
  0 <= i ->
  promote !! Z.to_nat (clamped i) = Some a ->
  promote !! Z.to_nat (clamped a) = Some b ->
  promote !! Z.to_nat (clamped b) = Some c ->
  c = 0 /\ promote !! Z.to_nat (clamped c) = Some 0.
Proof.
  intros Hi Ha Hb Hc. destruct (promote_cases i Hi) as (n & Hn & Hcl & _).
  rewrite Hcl in Ha.
  do 16 (destruct n as [|n];
         [vm_compute in Ha; injection Ha as <-;
          vm_compute in Hb; injection Hb as <-;
          vm_compute in Hc; injection Hc as <-; split; reflexivity|]).
  lia.
Qed.

(** X6. Under the table a hit never moves a line towards eviction: from any
    byte-sized depth the depth after [touch] is at most the depth before, and
    strictly smaller unless the line was at depth 0 already. *)
Theorem touch_exact_never_deeper :
  forall numWays this log (h : heap) rd d,
    Lenient.construct numWays = Constructed this log ->
    numWays = Lenient.IPV_K ->
    h !! rd = Some d -> is_uint8 (depth d) ->
    exists v h',
      Lenient.touch this rd h = Done tt h' /\
      depth_at h' rd = Some v /\
      0 <= v <= depth d /\
      (0 < depth d -> v < depth d).
Proof.
  intros numWays this log h rd d Hc Hk E Hd.
  destruct (construct_exact _ _ _ Hc Hk) as [-> _].
  destruct (touch_exact_run h rd d E Hd) as (v & Hp & Hr & Hrun).
  destruct (promote_decreasing _ _ (proj1 Hd) Hp) as [Hle Hlt].
  exists v, (<[rd := {| depth := v |}]> h).
  split; [exact Hrun|]. split; [apply depth_at_store|].
  split; [lia | exact Hlt].
Qed.

(** X6 at a line of depth 10, promoted to depth 5. *)
Lemma touch_exact_never_deeper_witness :
  Lenient.construct 16 = Constructed exact [] /\
  line 10 !! 1%positive = Some {| depth := 10 |} /\ is_uint8 10 /\
  exists v h',
    Lenient.touch exact 1%positive (line 10) = Done tt h' /\
    depth_at h' 1%positive = Some v /\
    0 <= v <= 10 /\
    (0 < 10 -> v < 10).
Proof.
  split; [reflexivity|]. split; [reflexivity|].
  split; [unfold is_uint8; lia|].
  apply (touch_exact_never_deeper 16 exact [] (line 10) 1%positive {| depth := 10 |});
    [reflexivity | reflexivity | reflexivity | unfold is_uint8; cbn; lia].
Defined.

(** X7. Under the table three hits in a row bring a line to depth 0 from any
    byte-sized depth, and further hits keep it there. *)
Theorem touch_exact_thrice :
  forall numWays this log (h : heap) rd d,
    Lenient.construct numWays = Constructed this log ->
    numWays = Lenient.IPV_K ->
    h !! rd = Some d -> is_uint8 (depth d) ->
    exists h3,
      (Lenient.touch this rd;; Lenient.touch this rd;; Lenient.touch this rd) h
      = Done tt h3 /\
      depth_at h3 rd = Some 0 /\
      (forall q, q <> rd -> h3 !! q = h !! q) /\
      Lenient.touch this rd h3 = Done tt h3.
Proof.
  intros numWays this log h rd d Hc Hk E Hd.
  destruct (construct_exact _ _ _ Hc Hk) as [-> _].
  assert (Hbyte : forall v, 0 <= v <= Lenient.IPV_K - 1 -> is_uint8 v)
    by (unfold Lenient.IPV_K, is_uint8; intros; lia).
  destruct (touch_exact_run h rd d E Hd) as (a & Ha & Hra & Hrun1).
  destruct (touch_exact_run (<[rd := {| depth := a |}]> h) rd {| depth := a |}
                            (lookup_insert_eq h rd _) (Hbyte _ Hra))
    as (b & Hb & Hrb & Hrun2).
  rewrite insert_insert_eq in Hrun2.
  destruct (touch_exact_run (<[rd := {| depth := b |}]> h) rd {| depth := b |}
                            (lookup_insert_eq h rd _) (Hbyte _ Hrb))
    as (c & Hc3 & Hrc & Hrun3).
  rewrite insert_insert_eq in Hrun3.
  cbn [depth] in Hb, Hc3.
  destruct (promote_thrice _ _ _ _ (proj1 Hd) Ha Hb Hc3) as [-> Hfix].
  exists (<[rd := {| depth := 0 |}]> h).
  split.
  - rewrite (bind_Done _ _ _ _ _ Hrun1), (bind_Done _ _ _ _ _ Hrun2). exact Hrun3.
  - split; [apply depth_at_store|].
    split; [intros q Hq; now apply lookup_insert_ne|].
    destruct (touch_exact_run (<[rd := {| depth := 0 |}]> h) rd {| depth := 0 |}
                              (lookup_insert_eq h rd _)
                              ltac:(unfold is_uint8; cbn; lia))
      as (z & Hz & _ & Hrun4).
    cbn [depth] in Hz. vm_compute in Hz. injection Hz as <-.
    now rewrite insert_insert_eq in Hrun4.
Qed.

(** X7 from depth 15, the longest way up: 15, 11, 1, 0. *)
Lemma touch_exact_thrice_witness :
  Lenient.construct 16 = Constructed exact [] /\
  line 15 !! 1%positive = Some {| depth := 15 |} /\ is_uint8 15 /\
  exists h3,
    (Lenient.touch exact 1%positive;; Lenient.touch exact 1%positive;;
     Lenient.touch exact 1%positive) (line 15) = Done tt h3 /\
    depth_at h3 1%positive = Some 0 /\
    (forall q, q <> 1%positive -> h3 !! q = line 15 !! q) /\
    Lenient.touch exact 1%positive h3 = Done tt h3.
Proof.
  split; [reflexivity|]. split; [reflexivity|].
  split; [unfold is_uint8; lia|].
  apply (touch_exact_thrice 16 exact [] (line 15) 1%positive {| depth := 15 |});
    [reflexivity | reflexivity | reflexivity | unfold is_uint8; cbn; lia].
Defined.

(** ** Victim selection: ties, order, and lines just hit *)

Lemma getVictim_Done_first_max (this : Lenient.LRUIPVRP) (h : heap)
      (candidates : list ReplaceableEntry) :
  candidates <> [] -> allocated h candidates ->
  exists i v dv,
    Lenient.getVictim this candidates h = Done v h /\
    candidates !! i = Some v /\ depth_of h v = Some dv /\
    (forall e de, e ∈ candidates -> depth_of h e = Some de -> de <= dv) /\
    (forall j e de, (j < i)%nat -> candidates !! j = Some e ->
                    depth_of h e = Some de -> de < dv).
Proof.
  intros Hne Hall.
  destruct (getVictim_scan h this candidates Hne Hall)
    as (i & v & dv & Hrun & Hi & Hv & Hmax & Hbefore).
  exists i, v, dv. repeat split; auto.
  intros e de He Hde. apply list_elem_of_lookup in He as [j Hj]. eauto.
Qed.

(** X8. When all candidates are equally deep (a set whose lines were all
    filled and never hit, say), the victim is the first candidate. *)
Theorem getVictim_all_equal :
  forall (this : Lenient.LRUIPVRP) (h : heap) e0 es d,
    allocated h (e0 :: es) ->
    (forall e, e ∈ e0 :: es -> depth_of h e = Some d) ->
    Lenient.getVictim this (e0 :: es) h = Done e0 h.
Proof.
  intros this h e0 es d Hall Heq.
  destruct (getVictim_Done_first_max this h (e0 :: es) ltac:(discriminate) Hall)
    as (i & v & dv & Hrun & Hi & Hv & _ & Hbefore).
  destruct i as [|i].
  - cbn in Hi. injection Hi as <-. exact Hrun.
  - assert (Hvd : depth_of h v = Some d)
      by (apply Heq, list_elem_of_lookup; eauto).
    rewrite Hvd in Hv. injection Hv as <-.
    pose proof (Hbefore 0%nat e0 d ltac:(lia) eq_refl
                        (Heq e0 ltac:(left))) as Hlt.
    lia.
Qed.

(** A heap of two lines, both at depth [v]. *)
Lemma allocated_pair (v : Z) :
  allocated (<[2%positive := {| depth := v |}]> (line v))
            [entry 0 1%positive; entry 1 2%positive].
Proof. repeat constructor; eexists; reflexivity. Defined.

(** X8 on two lines at depth 13. *)
Lemma getVictim_all_equal_witness :
  allocated (<[2%positive := {| depth := 13 |}]> (line 13))
            [entry 0 1%positive; entry 1 2%positive] /\
  Lenient.getVictim exact [entry 0 1%positive; entry 1 2%positive]
                    (<[2%positive := {| depth := 13 |}]> (line 13))
  = Done (entry 0 1%positive) (<[2%positive := {| depth := 13 |}]> (line 13)).
Proof.
  split; [exact (allocated_pair 13)|].
  apply (getVictim_all_equal exact _ (entry 0 1%positive) [entry 1 2%positive] 13
                             (allocated_pair 13)).
  intros e He.
  apply list_elem_of_In in He. cbn in He.
  destruct He as [<-|[<-|[]]]; reflexivity.
Defined.

(** X9. When one candidate is strictly deeper than every other, it is the
    victim in whatever order the candidates are handed over. *)
Theorem getVictim_unique_deepest :
  forall (this : Lenient.LRUIPVRP) (h : heap) candidates v dv,
    allocated h candidates ->
    v ∈ candidates -> depth_of h v = Some dv ->
    (forall e de, e ∈ candidates -> e <> v -> depth_of h e = Some de -> de < dv) ->
    forall candidates', candidates' ≡ₚ candidates ->
      Lenient.getVictim this candidates' h = Done v h.
Proof.
  intros this h candidates v dv Hall Hv Hdv Huniq candidates' Hperm.
  assert (Hall' : allocated h candidates')
    by (unfold allocated in *; now rewrite Hperm).
  assert (Hne : candidates' <> []).
  { intros ->. apply Permutation_nil_l in Hperm. subst candidates.
    now apply not_elem_of_nil in Hv. }
  destruct (getVictim_Done_first_max this h candidates' Hne Hall')
    as (i & v' & dv' & Hrun & Hi & Hv' & Hmax & _).
  assert (Hin' : v' ∈ candidates)
    by (rewrite <- Hperm; apply list_elem_of_lookup; eauto).
  assert (Hle : dv <= dv') by (apply (Hmax v dv); [now rewrite Hperm | exact Hdv]).
  destruct (decide (v' = v)) as [->|Hdiff]; [exact Hrun|].
  pose proof (Huniq v' dv' Hin' Hdiff Hv'). lia.
Qed.

(** X9 on the sample lines with the line behind pointer 3 hit once (depths
    3, 7, 2, 2): the line behind pointer 2 is the victim, also when the
    candidates come in reverse. *)
Lemma getVictim_unique_deepest_witness :
  Lenient.getVictim exact (reverse candidates_3772)
                    (<[3%positive := {| depth := 2 |}]> heap_3772)
  = Done (entry 1 2%positive) (<[3%positive := {| depth := 2 |}]> heap_3772).
Proof.
  apply (getVictim_unique_deepest exact _ candidates_3772 (entry 1 2%positive) 7).
  - repeat constructor; eexists; vm_compute; reflexivity.
  - apply list_elem_of_In. cbn. tauto.
  - vm_compute. reflexivity.
  - intros e de He Hne Hde. apply list_elem_of_In in He. cbn in He.
    destruct He as [<-|[<-|[<-|[<-|[]]]]]; vm_compute in Hde;
      first [congruence | injection Hde as <-; lia].
  - apply reverse_Permutation.
Defined.

(** X10. A line that was just hit is not the next victim while some other
    candidate is deeper than 0: on any heap a cache can bring about, in
    either mode, [touch] leaves its line at depth 0, and [getVictim] then
    returns a candidate with another per-line state. *)
Theorem touch_then_getVictim :
  forall (this : Lenient.LRUIPVRP) (h h' : heap) rd candidates e de,
    reachable this h ->
    Lenient.touch this rd h = Done tt h' ->
    allocated h' candidates ->
    e ∈ candidates -> depth_of h' e = Some de -> 0 < de ->
    depth_at h' rd = Some 0 /\
    exists v, Lenient.getVictim this candidates h' = Done v h' /\
              v ∈ candidates /\ replacementData v <> rd.
Proof.
  intros this h h' rd candidates e de Hr Ht Hall He Hde Hpos.
  assert (H0 : depth_at h' rd = Some 0).
  { destruct (touch_inv _ _ _ _ Ht) as (d & v & Hd & -> & Hv).
    rewrite depth_at_store. f_equal.
    pose proof (reachable_two_depths this h Hr rd d Hd) as H2.
    destruct (Lenient.useIpv this); [|exact Hv].
    destruct Hv as (_ & Hp & _).
    destruct H2 as [E|E]; rewrite E in Hp; vm_compute in Hp; congruence. }
  split; [exact H0|].
  assert (Hne : candidates <> [])
    by (intros ->; now apply not_elem_of_nil in He).
  destruct (getVictim_Done_first_max this h' candidates Hne Hall)
    as (i & v & dv & Hrun & Hi & Hv & Hmax & _).
  exists v. split; [exact Hrun|].
  split; [apply list_elem_of_lookup; eauto|].
  intros Heq. unfold depth_of in Hv. rewrite Heq in Hv.
  unfold depth_at in H0. rewrite H0 in Hv. injection Hv as <-.
  pose proof (Hmax e de He Hde). lia.
Qed.

(** A 4-way cache that allocated two lines and filled both. *)
Lemma reachable_pair :
  reachable (degraded 4) (<[2%positive := {| depth := 3 |}]> (line 3)).
Proof.
  unfold reachable.
  apply (rtc_l _ _ (line 0));
    [apply (step_instantiateEntry _ ∅ 1%positive); vm_compute; reflexivity|].
  apply (rtc_l _ _ (<[2%positive := {| depth := 0 |}]> (line 0)));
    [apply (step_instantiateEntry _ _ 2%positive); vm_compute; reflexivity|].
  apply (rtc_l _ _ (<[2%positive := {| depth := 0 |}]> (line 3)));
    [apply (step_reset _ _ 1%positive); vm_compute; reflexivity|].
  apply rtc_once. apply (step_reset _ _ 2%positive). vm_compute. reflexivity.
Defined.

(** X10 on that cache: the first line is hit, the second is the victim. *)
Lemma touch_then_getVictim_witness :
  reachable (degraded 4) (<[2%positive := {| depth := 3 |}]> (line 3)) /\
  depth_at (<[2%positive := {| depth := 3 |}]> (line 0)) 1%positive = Some 0 /\
  exists v,
    Lenient.getVictim (degraded 4) [entry 0 1%positive; entry 1 2%positive]
                      (<[2%positive := {| depth := 3 |}]> (line 0))
    = Done v (<[2%positive := {| depth := 3 |}]> (line 0)) /\
    v ∈ [entry 0 1%positive; entry 1 2%positive] /\
    replacementData v <> 1%positive.
Proof.
  split; [exact reachable_pair|].
  apply (touch_then_getVictim (degraded 4) _ _ 1%positive
           [entry 0 1%positive; entry 1 2%positive] (entry 1 2%positive) 3
           reachable_pair).
  - vm_compute. reflexivity.
  - repeat constructor; eexists; vm_compute; reflexivity.
  - apply list_elem_of_In. cbn. tauto.
  - vm_compute. reflexivity.
  - lia.
Defined.

(** ** Construction on a mismatch, and the strict variant *)

(** X11. The two constructors split on the same condition: at 16 ways both
    build an instance without a diagnostic; at any other associativity the
    strict one refuses with a fatal error naming 16 and the associativity
    received, and the lenient one builds an instance that keeps the
    associativity, does not use the table, and warns once. *)
Theorem construct_on_mismatch :
  forall numWays : Z,
    (numWays = 16 /\
     Strict.construct numWays = Constructed {| Strict.ways := 16 |} [] /\
     Lenient.construct numWays = Constructed exact [])
    \/
    (numWays <> 16 /\
     Strict.construct numWays = Rejected (Fatal 16 numWays) /\
     Lenient.construct numWays
     = Constructed (degraded numWays) [Warning numWays 16]).
Proof.
  intros numWays. destruct (decide (numWays = 16)) as [->|Hne].
  - left. repeat split; reflexivity.
  - right. split; [exact Hne|].
    unfold Strict.construct, Lenient.construct, Strict.IPV_K, Lenient.IPV_K.
    apply Z.eqb_neq in Hne. rewrite Hne. split; reflexivity.
Qed.

(** X12. Victim selection of the strict variant: it aborts on its assertion
    when there is no candidate, and otherwise returns, without writing, the
    earliest candidate of greatest depth. *)
Theorem strict_getVictim_first_max :
  forall (this : Strict.LRUIPVRP) (h : heap),
    Strict.getVictim this [] h = AssertionFailed /\
    forall candidates,
      candidates <> [] -> allocated h candidates ->
      exists i v dv,
        Strict.getVictim this candidates h = Done v h /\
        candidates !! i = Some v /\ depth_of h v = Some dv /\
        (forall e de, e ∈ candidates -> depth_of h e = Some de -> de <= dv) /\
        (forall j e de, (j < i)%nat -> candidates !! j = Some e ->
                        depth_of h e = Some de -> de < dv).
Proof.
  intros this h. split; [reflexivity|].
  intros candidates Hne Hall.
  destruct (getVictim_Done_first_max exact h candidates Hne Hall)
    as (i & v & dv & Hrun & Hrest).
  exists i, v, dv. split; [|exact Hrest].
  rewrite <- (getVictim_agree exact this). exact Hrun.
Qed.

(** X12 at the sample candidates. *)
Lemma strict_getVictim_first_max_witness :
  candidates_3772 <> [] /\ allocated heap_3772 candidates_3772 /\
  exists i v dv,
    Strict.getVictim {| Strict.ways := 16 |} candidates_3772 heap_3772
    = Done v heap_3772 /\
    candidates_3772 !! i = Some v /\ depth_of heap_3772 v = Some dv /\
    (forall e de, e ∈ candidates_3772 -> depth_of heap_3772 e = Some de -> de <= dv) /\
    (forall j e de, (j < i)%nat -> candidates_3772 !! j = Some e ->
                    depth_of heap_3772 e = Some de -> de < dv).
Proof.
  split; [discriminate|]. split; [exact allocated_3772|].
  apply (proj2 (strict_getVictim_first_max {| Strict.ways := 16 |} heap_3772)
               candidates_3772);
    [discriminate | exact allocated_3772].
Defined.

(** X13. Insertion and promotion of the strict variant: [reset] stores
    [IPV[16]] = 13 whatever the depth was, and [touch] stores the table's
    target of the old depth, clamped to 15, a value of [0, 15]; neither
    writes to another line. *)
Theorem strict_reset_touch :
  forall (this : Strict.LRUIPVRP) (h : heap) rd d,
    h !! rd = Some d -> is_uint8 (depth d) ->
    Strict.IPV !! Z.to_nat Strict.IPV_K = Some 13 /\
    Strict.reset this rd h = Done tt (<[rd := {| depth := 13 |}]> h) /\
    exists v,
      Strict.IPV !! Z.to_nat (if depth d <? Strict.IPV_K then depth d
                              else Strict.IPV_K - 1) = Some v /\
      0 <= v <= Strict.IPV_K - 1 /\
      Strict.touch this rd h = Done tt (<[rd := {| depth := v |}]> h).
Proof.
  intros this h rd d E Hd.
  split; [reflexivity|]. split.
  - change (Strict.reset this rd h) with (Lenient.reset exact rd h).
    exact (reset_exact_run h rd d E).
  - destruct (touch_exact_run h rd d E Hd) as (v & Hp & Hr & Hrun).
    destruct (promote_in_range _ (clamped_in_range _ (proj1 Hd)))
      as (v' & Hp' & Hv' & _).
    rewrite Hp in Hp'. injection Hp' as <-.
    exists v. split; [exact Hv'|]. split; [exact Hr|].
    change (Strict.touch this rd h) with (Lenient.touch exact rd h).
    exact Hrun.
Qed.

(** X13 at a line of depth 200. *)
Lemma strict_reset_touch_witness :
  line 200 !! 1%positive = Some {| depth := 200 |} /\ is_uint8 200 /\
  Strict.reset {| Strict.ways := 16 |} 1%positive (line 200) = Done tt (line 13) /\
  Strict.touch {| Strict.ways := 16 |} 1%positive (line 200) = Done tt (line 11).
Proof.
  split; [reflexivity|]. split; [unfold is_uint8; lia|].
  destruct (strict_reset_touch {| Strict.ways := 16 |} (line 200) 1%positive
                               {| depth := 200 |} eq_refl
                               ltac:(unfold is_uint8; cbn; lia))
    as (_ & Hreset & v & Hv & _ & Htouch).
  split.
  - rewrite Hreset. vm_compute. reflexivity.
  - vm_compute in Hv. injection Hv as <-. rewrite Htouch. vm_compute. reflexivity.
Defined.

(** ** Which line goes *)

Lemma allocated_lookup (h : heap) (es : list ReplaceableEntry) (j : nat)
      (e : ReplaceableEntry) :
  allocated h es -> es !! j = Some e ->
  exists d, h !! replacementData e = Some d /\ depth_of h e = Some (depth d).
Proof.
  intros Hall Hj. apply allocated_depth_of.
  exact (proj1 (Forall_lookup _ _) Hall j e Hj).
Qed.

(** X14. On any heap a cache can bring about, in either mode, the victim is
    the first candidate that is not at depth 0 (a line not hit since it was
    filled); when every candidate is at depth 0 it is the first candidate. *)
Theorem getVictim_first_not_hit :
  forall (this : Lenient.LRUIPVRP) (h : heap) candidates,
    reachable this h ->
    candidates <> [] -> allocated h candidates ->
    exists i v,
      Lenient.getVictim this candidates h = Done v h /\
      candidates !! i = Some v /\
      (forall j e, (j < i)%nat -> candidates !! j = Some e ->
                   depth_of h e = Some 0) /\
      (depth_of h v = Some 0 ->
       i = 0%nat /\ forall e, e ∈ candidates -> depth_of h e = Some 0).
Proof.
  intros this h candidates Hr Hne Hall.
  pose proof (reachable_two_depths this h Hr) as H2.
  set (inserted := if Lenient.useIpv this then 13
                   else to_uint8 (to_unsigned (Lenient.ways this - 1))) in H2.
  assert (Hins : 0 <= inserted).
  { subst inserted. destruct (Lenient.useIpv this); [lia|].
    unfold to_uint8. apply Z.mod_pos_bound. lia. }
  assert (Hdepth : forall j e, candidates !! j = Some e ->
            exists de, depth_of h e = Some de /\ (de = 0 \/ de = inserted)).
  { intros j e Hj. destruct (allocated_lookup h candidates j e Hall Hj) as (d & Hd & Hde).
    exists (depth d). split; [exact Hde | exact (H2 _ d Hd)]. }
  destruct (getVictim_Done_first_max this h candidates Hne Hall)
    as (i & v & dv & Hrun & Hi & Hv & Hmax & Hbefore).
  destruct (Hdepth i v Hi) as (dv' & Hv' & Hdv).
  rewrite Hv in Hv'. injection Hv' as <-.
  exists i, v. split; [exact Hrun|]. split; [exact Hi|]. split.
  - intros j e Hj Hlk. destruct (Hdepth j e Hlk) as (de & Hde & Hcase).
    pose proof (Hbefore j e de Hj Hlk Hde) as Hlt.
    rewrite Hde. f_equal. lia.
  - intros Hzero. rewrite Hv in Hzero. injection Hzero as ->. split.
    + destruct i as [|i]; [reflexivity|].
      destruct candidates as [|e0 es]; [congruence|].
      destruct (Hdepth 0%nat e0 eq_refl) as (de & Hde & Hcase).
      pose proof (Hbefore 0%nat e0 de ltac:(lia) eq_refl Hde). lia.
    + intros e He. pose proof He as He'.
      apply list_elem_of_lookup in He' as [j Hj].
      destruct (Hdepth j e Hj) as (de & Hde & Hcase).
      pose proof (Hmax e de He Hde). rewrite Hde. f_equal. lia.
Qed.

(** X14 on a 4-way cache with two filled lines. *)
Lemma getVictim_first_not_hit_witness :
  reachable (degraded 4) (<[2%positive := {| depth := 3 |}]> (line 3)) /\
  exists i v,
    Lenient.getVictim (degraded 4) [entry 0 1%positive; entry 1 2%positive]
                      (<[2%positive := {| depth := 3 |}]> (line 3))
    = Done v (<[2%positive := {| depth := 3 |}]> (line 3)) /\
    [entry 0 1%positive; entry 1 2%positive] !! i = Some v /\
    (forall j e, (j < i)%nat ->
                 [entry 0 1%positive; entry 1 2%positive] !! j = Some e ->
                 depth_of (<[2%positive := {| depth := 3 |}]> (line 3)) e = Some 0) /\
    (depth_of (<[2%positive := {| depth := 3 |}]> (line 3)) v = Some 0 ->
     i = 0%nat /\
     forall e, e ∈ [entry 0 1%positive; entry 1 2%positive] ->
               depth_of (<[2%positive := {| depth := 3 |}]> (line 3)) e = Some 0).
Proof.
  split; [exact reachable_pair|].
  apply (getVictim_first_not_hit (degraded 4) _
           [entry 0 1%positive; entry 1 2%positive] reachable_pair);
    [discriminate | exact (allocated_pair 3)].
Defined.
